(** * api.py: lifespan orchestration and request middleware

    A shallow embedding of [src/api.py]: the [lifespan] context manager
    (startup sequence, background tasks, shutdown sequence) and the two
    HTTP middlewares [fix_paths_middleware] and [log_requests_middleware]. *)

From Stdlib Require Import String Ascii List ZArith Lia Bool Arith.
From Equations Require Import Equations.
Import ListNotations.
Open Scope string_scope.

(** What running a piece of Python code gives: a value, or an
    [Exception] with the given [str]. *)
Inductive res (A : Type) : Type :=
| Ok (a : A)
| Exc (msg : string).
Arguments Ok {A} a.
Arguments Exc {A} msg.

(** ** Python string operations used by the path middleware

    A string is the sequence of its characters.  The patterns of the
    source are ASCII, so matching them character by character is the
    same on code points and on the bytes of the UTF-8 encoding. *)

Module PyStr.

(** [str.startswith]: [startswith pre s] is [s.startswith(pre)]. *)
Fixpoint startswith (pre s : string) : bool :=
  match pre, s with
  | EmptyString, _ => true
  | String a pre', String b s' => if Ascii.eqb a b then startswith pre' s' else false
  | String _ _, EmptyString => false
  end.

(** [drop n s] is the slice [s[n:]]. *)
Fixpoint drop (n : nat) (s : string) : string :=
  match n, s with
  | O, _ => s
  | S n', String _ s' => drop n' s'
  | S _, EmptyString => EmptyString
  end.

(** [str.replace] with a non-empty pattern [String o os]: the string is
    scanned from the left; where the pattern matches, the replacement is
    emitted and the scan resumes after the match, otherwise one character
    is copied. *)
Equations? replace_nonempty (o : ascii) (os : string) (new s : string) : string
  by wf (String.length s) lt :=
  replace_nonempty o os new EmptyString := EmptyString;
  replace_nonempty o os new (String c t) with startswith (String o os) (String c t) => {
    | true := new ++ replace_nonempty o os new (drop (String.length os) t);
    | false := String c (replace_nonempty o os new t) }.
Proof.
  assert (Hdrop : forall n u, String.length (drop n u) <= String.length u).
  { intros n; induction n as [|n IH]; intros [|b u]; simpl; try lia.
    specialize (IH u); lia. }
  specialize (Hdrop (String.length os) t); simpl; lia.
Qed.

(** With the empty pattern, Python puts the replacement before every
    character and at the end. *)
Fixpoint after_each (new s : string) : string :=
  match s with
  | EmptyString => EmptyString
  | String c t => String c (new ++ after_each new t)
  end.

(** [str.replace(old, new)]. *)
Definition replace (old new s : string) : string :=
  match old with
  | EmptyString => new ++ after_each new s
  | String o os => replace_nonempty o os new s
  end.

(** [old in s] *)
Fixpoint contains (old s : string) : bool :=
  startswith old s ||
  match s with
  | EmptyString => false
  | String _ t => contains old t
  end.

(** [sep.join(pieces)] *)
Fixpoint join (sep : string) (pieces : list string) : string :=
  match pieces with
  | [] => EmptyString
  | [p] => p
  | p :: rest => p ++ sep ++ join sep rest
  end.

(** [no_early_match old p]: in [p ++ old] the pattern [old] is found
    nowhere before the end of [p]. *)
Fixpoint no_early_match (old p : string) : bool :=
  match p with
  | EmptyString => true
  | String _ t => negb (startswith old (p ++ old)) && no_early_match old t
  end.

(** [cut_at old pieces]: [pieces] is what [join old pieces] falls into
    when it is cut at the occurrences of [old] that a scan from the left
    finds, each occurrence starting after the end of the one before
    (the list [str.split(old)] returns). *)
Fixpoint cut_at (old : string) (pieces : list string) : bool :=
  match pieces with
  | [] => false
  | [p] => negb (contains old p)
  | p :: rest => no_early_match old p && cut_at old rest
  end.

End PyStr.

(** ** The lifespan context manager *)

Module Lifespan.

(** The awaited or called functions of other modules, in the order in
    which [lifespan] reaches them.  An import inside the function body
    is taken together with the call it serves. *)
Inductive ext_call : Type :=
| db_initialize                (* await db.initialize() *)
| init_db                      (* await init_db() *)
| execute_one                  (* await execute_one("SELECT 1", {}) *)
| warm_up_tools_cache
| load_static_suna_config
| sandbox_api_initialize       (* sandbox_api.initialize(db) *)
| redis_initialize_async       (* await redis.initialize_async() *)
| db_client                    (* client = await db.client *)
| cleanup_orphaned_agent_runs  (* await cleanup_orphaned_agent_runs(client) *)
| triggers_api_initialize
| credentials_api_initialize
| template_api_initialize
| composio_api_initialize
| lifecycle_initialize         (* await lifecycle.initialize() *)
| redis_close                  (* await redis.close() *)
| db_disconnect                (* await db.disconnect() *)
| close_db.                    (* await close_db() *)

(** What a call does: it returns, or it raises an [Exception] whose
    [str] is the given message (the failures that [except Exception]
    handles). *)
Inductive outcome : Type :=
| Returns
| Raises (msg : string).

(** [config.ENV_MODE]; the source names one member, [EnvMode.PRODUCTION]. *)
Inductive EnvMode : Type :=
| PRODUCTION
| OtherMode (name : string).

Definition is_production (m : EnvMode) : bool :=
  match m with PRODUCTION => true | OtherMode _ => false end.

(** The surroundings of one process: how each collaborator behaves and
    the deployment mode. *)
Record env : Type := {
  behaviour : ext_call -> outcome;
  ENV_MODE : EnvMode
}.

(** The coroutines handed to [asyncio.create_task]. *)
Inductive coroutine : Type :=
| start_cloudwatch_publisher
| start_stream_cleanup_task
| _memory_watchdog
| start_pool_service.

(** A task object of the event loop.  Tasks live in a store and are
    referred to by their handle, the index in the store. *)
Record Task : Type := {
  coro : coroutine;
  cancel_requested : bool      (* Task.cancel() was called *)
}.

Inductive event : Type :=
| Called (c : ext_call)
| ReadEnvMode                           (* config.ENV_MODE == EnvMode.PRODUCTION *)
| Created (h : nat) (c : coroutine)     (* asyncio.create_task *)
| Cancelled (h : nat)                   (* Task.cancel() *)
| Awaited (h : nat)                     (* await of a task *)
| Yielded                               (* control given to the running application *)
| SetShuttingDown
| Slept (seconds : nat)                 (* await asyncio.sleep *)
| Logged (msg : string).                (* logger.error *)

(** Module globals, the task store and the events so far, oldest first. *)
Record state : Type := {
  tasks : list Task;
  _worker_metrics_task : option nat;
  _memory_watchdog_task : option nat;
  _stream_cleanup_task : option nat;
  _is_shutting_down : bool;
  trace : list event
}.

Definition initial_state : state :=
  {| tasks := [];
     _worker_metrics_task := None;
     _memory_watchdog_task := None;
     _stream_cleanup_task := None;
     _is_shutting_down := false;
     trace := [] |}.

(** *** A state and exception monad *)

Definition M (A : Type) : Type := state -> res A * state.

Definition ret {A} (a : A) : M A := fun st => (Ok a, st).

Definition bind {A B} (m : M A) (k : A -> M B) : M B :=
  fun st =>
    match m st with
    | (Ok a, st') => k a st'
    | (Exc msg, st') => (Exc msg, st')
    end.

Notation "x <- m ;; k" := (bind m (fun x => k))
  (at level 61, m at next level, right associativity).
Notation "m ;; k" := (bind m (fun _ => k))
  (at level 61, right associativity).

Definition emit (ev : event) : M unit :=
  fun st =>
    (Ok tt, {| tasks := tasks st;
               _worker_metrics_task := _worker_metrics_task st;
               _memory_watchdog_task := _memory_watchdog_task st;
               _stream_cleanup_task := _stream_cleanup_task st;
               _is_shutting_down := _is_shutting_down st;
               trace := trace st ++ [ev] |}).

(** [try: m  except Exception: pass] *)
Definition try_except_pass (m : M unit) : M unit :=
  fun st =>
    match m st with
    | (Ok a, st') => (Ok a, st')
    | (Exc _, st') => (Ok tt, st')
    end.

(** [try: m  except Exception as e: logger.error(f"Error startup: {e}"); raise] *)
Definition try_log_reraise (m : M unit) : M unit :=
  fun st =>
    match m st with
    | (Ok a, st') => (Ok a, st')
    | (Exc msg, st') => (_ <- emit (Logged ("Error startup: " ++ msg)) ;; (fun s => (Exc msg, s))) st'
    end.

Section WithEnv.

Variable e : env.

Definition call (c : ext_call) : M unit :=
  emit (Called c) ;;
  match behaviour e c with
  | Returns => ret tt
  | Raises msg => fun st => (Exc msg, st)
  end.

Definition read_env_mode : M EnvMode :=
  emit ReadEnvMode ;; ret (ENV_MODE e).

(** [asyncio.create_task(c)]: a new task object enters the store. *)
Definition create_task (c : coroutine) : M nat :=
  fun st =>
    let h := List.length (tasks st) in
    (Ok h, {| tasks := tasks st ++ [{| coro := c; cancel_requested := false |}];
              _worker_metrics_task := _worker_metrics_task st;
              _memory_watchdog_task := _memory_watchdog_task st;
              _stream_cleanup_task := _stream_cleanup_task st;
              _is_shutting_down := _is_shutting_down st;
              trace := trace st ++ [Created h c] |}).

Fixpoint request_cancel (h : nat) (ts : list Task) : list Task :=
  match ts, h with
  | [], _ => []
  | t :: ts', O => {| coro := coro t; cancel_requested := true |} :: ts'
  | t :: ts', S h' => t :: request_cancel h' ts'
  end.

(** [task.cancel()] on the task behind handle [h]. *)
Definition cancel (h : nat) : M unit :=
  fun st =>
    (Ok tt, {| tasks := request_cancel h (tasks st);
               _worker_metrics_task := _worker_metrics_task st;
               _memory_watchdog_task := _memory_watchdog_task st;
               _stream_cleanup_task := _stream_cleanup_task st;
               _is_shutting_down := _is_shutting_down st;
               trace := trace st ++ [Cancelled h] |}).

Definition set_worker_metrics_task (h : nat) : M unit :=
  fun st =>
    (Ok tt, {| tasks := tasks st;
               _worker_metrics_task := Some h;
               _memory_watchdog_task := _memory_watchdog_task st;
               _stream_cleanup_task := _stream_cleanup_task st;
               _is_shutting_down := _is_shutting_down st;
               trace := trace st |}).

Definition set_memory_watchdog_task (h : nat) : M unit :=
  fun st =>
    (Ok tt, {| tasks := tasks st;
               _worker_metrics_task := _worker_metrics_task st;
               _memory_watchdog_task := Some h;
               _stream_cleanup_task := _stream_cleanup_task st;
               _is_shutting_down := _is_shutting_down st;
               trace := trace st |}).

Definition set_stream_cleanup_task (h : nat) : M unit :=
  fun st =>
    (Ok tt, {| tasks := tasks st;
               _worker_metrics_task := _worker_metrics_task st;
               _memory_watchdog_task := _memory_watchdog_task st;
               _stream_cleanup_task := Some h;
               _is_shutting_down := _is_shutting_down st;
               trace := trace st |}).

Definition set_is_shutting_down : M unit :=
  fun st =>
    (Ok tt, {| tasks := tasks st;
               _worker_metrics_task := _worker_metrics_task st;
               _memory_watchdog_task := _memory_watchdog_task st;
               _stream_cleanup_task := _stream_cleanup_task st;
               _is_shutting_down := true;
               trace := trace st ++ [SetShuttingDown] |}).

(** [if task: task.cancel()] on a global that holds [None] or a task. *)
Definition cancel_if_set (g : state -> option nat) : M unit :=
  fun st =>
    match g st with
    | Some h => cancel h st
    | None => (Ok tt, st)
    end.

(** Lines 89-115: the subsystem initialization steps. *)
Definition init_sequence : M unit :=
  call db_initialize ;;
  call init_db ;;
  try_except_pass (call execute_one) ;;
  call warm_up_tools_cache ;;
  call load_static_suna_config ;;
  call sandbox_api_initialize ;;
  try_except_pass (call redis_initialize_async) ;;
  try_except_pass (call db_client ;; call cleanup_orphaned_agent_runs) ;;
  call triggers_api_initialize ;;
  call credentials_api_initialize ;;
  call template_api_initialize ;;
  call composio_api_initialize.

(** Lines 117-126: the background tasks. *)
Definition start_tasks : M unit :=
  mode <- read_env_mode ;;
  (if is_production mode
   then h <- create_task start_cloudwatch_publisher ;; set_worker_metrics_task h
   else ret tt) ;;
  h <- create_task start_stream_cleanup_task ;;
  set_stream_cleanup_task h ;;
  h <- create_task _memory_watchdog ;;
  set_memory_watchdog_task h ;;
  _ <- create_task start_pool_service ;;
  ret tt.

(** Lines 89-129: everything before the [yield]. *)
Definition startup : M unit :=
  init_sequence ;;
  start_tasks ;;
  call lifecycle_initialize.

(** Lines 133-143: everything after the [yield]. *)
Definition shutdown : M unit :=
  set_is_shutting_down ;;
  emit (Slept 2) ;;
  cancel_if_set _worker_metrics_task ;;
  cancel_if_set _memory_watchdog_task ;;
  try_except_pass (call redis_close) ;;
  call db_disconnect ;;
  call close_db.

(** The whole context manager, entered and left once, the application
    leaving the [yield] normally. *)
Definition lifespan : M unit :=
  try_log_reraise (startup ;; emit Yielded ;; shutdown).

(** One process: [lifespan] run from the state the module is loaded in. *)
Definition run : res unit * state := lifespan initial_state.

Definition result : res unit := fst run.
Definition final : state := snd run.

End WithEnv.

(** Every collaborator works. *)
Definition env_ok (mode : EnvMode) : env :=
  {| behaviour := fun _ => Returns; ENV_MODE := mode |}.

Definition ext_call_eqb (a b : ext_call) : bool :=
  match a, b with
  | db_initialize, db_initialize | init_db, init_db | execute_one, execute_one
  | warm_up_tools_cache, warm_up_tools_cache
  | load_static_suna_config, load_static_suna_config
  | sandbox_api_initialize, sandbox_api_initialize
  | redis_initialize_async, redis_initialize_async | db_client, db_client
  | cleanup_orphaned_agent_runs, cleanup_orphaned_agent_runs
  | triggers_api_initialize, triggers_api_initialize
  | credentials_api_initialize, credentials_api_initialize
  | template_api_initialize, template_api_initialize
  | composio_api_initialize, composio_api_initialize
  | lifecycle_initialize, lifecycle_initialize | redis_close, redis_close
  | db_disconnect, db_disconnect | close_db, close_db => true
  | _, _ => false
  end.

(** Every collaborator works except [c], which raises [msg]. *)
Definition env_failing (mode : EnvMode) (c : ext_call) (msg : string) : env :=
  {| behaviour := fun c' => if ext_call_eqb c' c then Raises msg else Returns;
     ENV_MODE := mode |}.

(** *** Reading the initialization steps and the trace *)

Inductive criticality : Type :=
| Required      (* an exception leaves [init_sequence] *)
| BestEffort.   (* the step stands inside [try: ... except Exception: pass] *)

(** The steps of [init_sequence] (lines 89-115) with the way the source
    guards them; the other calls are not initialization steps. *)
Definition criticality_of (c : ext_call) : option criticality :=
  match c with
  | db_initialize | init_db | warm_up_tools_cache | load_static_suna_config
  | sandbox_api_initialize | triggers_api_initialize | credentials_api_initialize
  | template_api_initialize | composio_api_initialize => Some Required
  | execute_one | redis_initialize_async | db_client | cleanup_orphaned_agent_runs =>
      Some BestEffort
  | lifecycle_initialize | redis_close | db_disconnect | close_db => None
  end.

(** The calls of [init_sequence] in the order of the source. *)
Definition init_calls : list ext_call :=
  [db_initialize; init_db; execute_one; warm_up_tools_cache; load_static_suna_config;
   sandbox_api_initialize; redis_initialize_async; db_client;
   cleanup_orphaned_agent_runs; triggers_api_initialize; credentials_api_initialize;
   template_api_initialize; composio_api_initialize].

(** The first call of every step: [cleanup_orphaned_agent_runs] shares
    its [try] with [db_client] and is reached only when that returns. *)
Definition step_heads : list ext_call :=
  [db_initialize; init_db; execute_one; warm_up_tools_cache; load_static_suna_config;
   sandbox_api_initialize; redis_initialize_async; db_client;
   triggers_api_initialize; credentials_api_initialize;
   template_api_initialize; composio_api_initialize].

(** The events behind the [yield]. *)
Fixpoint after_yield (tr : list event) : list event :=
  match tr with
  | [] => []
  | Yielded :: rest => rest
  | _ :: rest => after_yield rest
  end.

(** The events ahead of the first task creation. *)
Fixpoint before_first_created (tr : list event) : list event :=
  match tr with
  | [] => []
  | Created _ _ :: _ => []
  | ev :: rest => ev :: before_first_created rest
  end.

Definition is_created (ev : event) : bool :=
  match ev with Created _ _ => true | _ => false end.

Definition is_awaited (ev : event) : bool :=
  match ev with Awaited _ => true | _ => false end.

Definition is_logged (ev : event) : bool :=
  match ev with Logged _ => true | _ => false end.

Definition is_yielded (ev : event) : bool :=
  match ev with Yielded => true | _ => false end.

Definition is_called (c : ext_call) (ev : event) : bool :=
  match ev with Called c' => ext_call_eqb c' c | _ => false end.

Definition is_publisher_created (ev : event) : bool :=
  match ev with Created _ start_cloudwatch_publisher => true | _ => false end.

(** The three guarded steps fail, everything else works. *)
Definition env_best_effort_down (mode : EnvMode) : env :=
  {| behaviour := fun c =>
       match criticality_of c with
       | Some BestEffort => Raises "unavailable"
       | _ => Returns
       end;
     ENV_MODE := mode |}.

Definition is_read_env_mode (ev : event) : bool :=
  match ev with ReadEnvMode => true | _ => false end.

(** Acquisition and release of the two resource handles: the database
    connection [db] and the cache client [redis]. *)
Definition is_handle_event (ev : event) : bool :=
  match ev with
  | Called db_initialize | Called redis_initialize_async
  | Called redis_close | Called db_disconnect => true
  | _ => false
  end.

(** The same with the second database module, [core.services.db]. *)
Definition is_resource_event (ev : event) : bool :=
  match ev with
  | Called db_initialize | Called init_db | Called redis_initialize_async
  | Called redis_close | Called db_disconnect | Called close_db => true
  | _ => false
  end.

End Lifespan.

(** ** The HTTP middlewares *)

Module Middleware.

Import PyStr.

Record Response : Type := { status_code : Z }.

Inductive log_entry : Type :=
| LogRequest (method path : string) (status : Z) (process_time : Z)
    (* logger.error(f"{method} {path} | Status: {status} | Time: {process_time:.2f}s") *)
| LogFailure (msg : string).
    (* logger.error(f"Request failed: {str(e)}") *)

(** What the processing of one request reads and changes.  The ASGI
    scope is one dictionary handed down the whole chain, so a write to
    [scope["path"]] by one middleware is seen by all the others.
    [clock] is the reading of [time.time()], in ticks. *)
Record world : Type := {
  scope_method : string;                 (* scope["method"] *)
  scope_path : string;                   (* scope["path"] *)
  clock : Z;
  contextvars : list (string * string);  (* structlog context variables *)
  log : list log_entry
}.

(** An ASGI application, or the [call_next] of a middleware. *)
Definition handler : Type := world -> res Response * world.

Definition middleware : Type := handler -> handler.

(** A [Request] object.  Every middleware gets its own, over the shared
    scope; its [url] is computed from the scope on first use and kept. *)
Record Request : Type := { _url : option string }.

Definition new_request : Request := {| _url := None |}.

Definition set_scope_path (p : string) (w : world) : world :=
  {| scope_method := scope_method w; scope_path := p; clock := clock w;
     contextvars := contextvars w; log := log w |}.

Definition tick (d : Z) (w : world) : world :=
  {| scope_method := scope_method w; scope_path := scope_path w;
     clock := (clock w + d)%Z;
     contextvars := contextvars w; log := log w |}.

Definition clear_contextvars (w : world) : world :=
  {| scope_method := scope_method w; scope_path := scope_path w; clock := clock w;
     contextvars := []; log := log w |}.

Definition logger_error (entry : log_entry) (w : world) : world :=
  {| scope_method := scope_method w; scope_path := scope_path w; clock := clock w;
     contextvars := contextvars w; log := log w ++ [entry] |}.

(** Lines 156-159: the value assigned to [request.scope["path"]], if any. *)
Definition rewritten_path (path : string) : option string :=
  if startswith "/v1/agent-run/" path
  then Some (replace "/v1/agent-run/" "/v1/agent-runs/" path)
  else if startswith "/v1/thread/" path
  then Some (replace "/v1/thread/" "/v1/threads/" path)
  else None.

(** The path the rest of the chain sees for a request path [path]. *)
Definition normalize (path : string) : string :=
  match rewritten_path path with
  | Some p => p
  | None => path
  end.

Definition with_contextvars (cv : list (string * string)) (w : world) : world :=
  {| scope_method := scope_method w; scope_path := scope_path w; clock := clock w;
     contextvars := cv; log := log w |}.

Section Chain.

(** The path of [request.url] as the framework computes it.  The
    framework does not read it off [scope["path"]]: it builds a URL from
    the entries of the scope and parses the path back out of that URL, so
    characters of the scope path that mean something in a URL do not come
    back as they went in.  [request_url_path p] is that path for the scope
    of the request with [p] as its ["path"] entry. *)
Variable request_url_path : string -> string.

(** [request.url.path]: the URL is computed on first use and kept. *)
Definition url_path (r : Request) (w : world) : string * Request :=
  match _url r with
  | Some p => (p, r)
  | None => let p := request_url_path (scope_path w) in (p, {| _url := Some p |})
  end.

(** The time the path rewrite of [fix_paths_middleware] takes. *)
Variable fix_paths_time : string -> Z.

Definition fix_paths_middleware (call_next : handler) : handler :=
  fun w =>
    let request := new_request in
    let (path, request) := url_path request w in
    let w := tick (fix_paths_time path)
               match rewritten_path path with
               | Some p => set_scope_path p w
               | None => w
               end in
    call_next w.

(** The fresh [request_id] of line 167 is not used again and is left out. *)
Definition log_requests_middleware (call_next : handler) : handler :=
  fun w =>
    let request := new_request in
    let w := clear_contextvars w in
    let start_time := clock w in
    match call_next w with
    | (Ok response, w) =>
        let process_time := (clock w - start_time)%Z in
        if (status_code response >=? 400)%Z
        then let (path, request) := url_path request w in
             (Ok response,
              logger_error (LogRequest (scope_method w) path (status_code response) process_time) w)
        else (Ok response, w)
    | (Exc msg, w) =>
        (Exc msg, logger_error (LogFailure ("Request failed: " ++ msg)) w)
    end.

(** The [call_next] that the framework hands to a function registered
    with [app.middleware("http")]: the downstream application runs in a
    task of its own, on a copy of the context, so the context variables
    it binds do not come back to the caller.  It works on the same
    scope, and its response or exception comes back as it is. *)
Definition call_next_of (downstream : handler) : handler :=
  fun w =>
    let (r, w') := downstream w in
    (r, with_contextvars (contextvars w) w').

(** [app.middleware("http")]: the function becomes a middleware. *)
Definition http_middleware (dispatch : handler -> handler) : middleware :=
  fun downstream => dispatch (call_next_of downstream).

(** [app.middleware("http")] and [app.add_middleware] put the new
    middleware in front of those registered before it. *)
Definition add_middleware (m : middleware) (user_middleware : list middleware)
  : list middleware := m :: user_middleware.

(** The middleware stack is built inside out, so the first of the list
    is the outermost layer around the router. *)
Definition build_middleware_stack (user_middleware : list middleware) (router : handler)
  : handler := fold_right (fun m app => m app) router user_middleware.

(** Lines 152, 164 and 182 in the order in which they run at import;
    [cors] is the [CORSMiddleware] of the framework. *)
Definition user_middleware (cors : middleware) : list middleware :=
  add_middleware cors
    (add_middleware (http_middleware log_requests_middleware)
       (add_middleware (http_middleware fix_paths_middleware) [])).

Definition app (cors : middleware) (router : handler) : handler :=
  build_middleware_stack (user_middleware cors) router.

End Chain.

(** An endpoint that takes [d] ticks and answers with [status]. *)
Definition endpoint (d status : Z) : handler :=
  fun w => (Ok {| status_code := status |}, tick d w).

Definition request_to (method path : string) : world :=
  {| scope_method := method; scope_path := path; clock := 0;
     contextvars := []; log := [] |}.

End Middleware.

(** ** The memory watchdog *)

Module Watchdog.

(** What one [await asyncio.sleep(60)] does to the coroutine that waits:
    the time elapses, the task is cancelled while it waits, or the await
    raises something else. *)
Inductive sleep_outcome : Type :=
| Elapsed
| CancelledError
| OtherError (msg : string).

(** How the coroutine has ended, if it has. *)
Inductive ending : Type :=
| Finished (r : res unit)
| StillRunning.

(** Lines 250-254, observed for [fuel] turns of the loop; [awaits i] is
    the outcome of the await of turn [i].  The result is the number of
    seconds slept and the ending. *)
Fixpoint watchdog_loop (fuel : nat) (awaits : nat -> sleep_outcome) (i : nat)
  : nat * ending :=
  match fuel with
  | O => (60 * i, StillRunning)
  | S fuel' =>
      match awaits i with
      | Elapsed => watchdog_loop fuel' awaits (S i)
      | CancelledError => (60 * i, Finished (Ok tt))      (* except asyncio.CancelledError: pass *)
      | OtherError msg => (60 * i, Finished (Exc msg))
      end
  end.

Definition _memory_watchdog_coro (fuel : nat) (awaits : nat -> sleep_outcome)
  : nat * ending := watchdog_loop fuel awaits 0.

(** Cancelled during the await of turn [k]. *)
Definition cancelled_at (k : nat) : nat -> sleep_outcome :=
  fun i => if Nat.eqb i k then CancelledError else Elapsed.

End Watchdog.

(** ** Observations on a run of the lifespan and on a request *)

Module Observe.

Import Lifespan Middleware.

(** The calls that stand outside every [try ... except Exception: pass]. *)
Definition unguarded (c : ext_call) : bool :=
  match c with
  | execute_one | redis_initialize_async | db_client
  | cleanup_orphaned_agent_runs | redis_close => false
  | _ => true
  end.

(** The line of [src/api.py] on which the call stands. *)
Definition call_line (c : ext_call) : nat :=
  match c with
  | db_initialize => 89
  | init_db => 91
  | execute_one => 94
  | warm_up_tools_cache => 98
  | load_static_suna_config => 100
  | sandbox_api_initialize => 101
  | redis_initialize_async => 104
  | db_client => 108
  | cleanup_orphaned_agent_runs => 109
  | triggers_api_initialize => 112
  | credentials_api_initialize => 113
  | template_api_initialize => 114
  | composio_api_initialize => 115
  | lifecycle_initialize => 129
  | redis_close => 139
  | db_disconnect => 141
  | close_db => 143
  end.

(** The lines of the calls of a trace, in the order of the trace. *)
Fixpoint called_lines (tr : list event) : list nat :=
  match tr with
  | [] => []
  | Called c :: rest => call_line c :: called_lines rest
  | _ :: rest => called_lines rest
  end.

Fixpoint increasing (l : list nat) : bool :=
  match l with
  | a :: (b :: _) as rest => Nat.ltb a b && increasing rest
  | _ => true
  end.

Definition is_cancelled (ev : event) : bool :=
  match ev with Cancelled _ => true | _ => false end.

(** The request arrives with context variables left by earlier work. *)
Definition set_contextvars (cv : list (string * string)) (w : world) : world :=
  {| scope_method := scope_method w; scope_path := scope_path w; clock := clock w;
     contextvars := cv; log := log w |}.


End Observe.

(** * Properties *)

(** ** Facts about the string operations *)

Module PyStrFacts.

Import PyStr.

Example replace_two_matches :
  replace "/v1/thread/" "/v1/threads/" "/v1/thread/a/v1/thread/b"
  = "/v1/threads/a/v1/threads/b".
Proof. reflexivity. Qed.

Example replace_empty_pattern : replace "" "-" "abc" = "-a-b-c-".
Proof. reflexivity. Qed.

Lemma drop_length_le n s : String.length (drop n s) <= String.length s.
Proof.
  revert s; induction n as [|n IH]; intros [|c s]; simpl; try lia.
  specialize (IH s); lia.
Qed.

Lemma startswith_app p s : startswith p (p ++ s) = true.
Proof.
  induction p as [|a p IH]; simpl; [reflexivity|].
  rewrite Ascii.eqb_refl. exact IH.
Qed.

Lemma startswith_app_long p s r :
  String.length p <= String.length s -> startswith p (s ++ r) = startswith p s.
Proof.
  revert s; induction p as [|a p IH]; intros [|b s] Hlen; simpl in *; try reflexivity; try lia.
  destruct (Ascii.eqb a b); [apply IH; lia | reflexivity].
Qed.

Lemma drop_app p s : drop (String.length p) (p ++ s) = s.
Proof. induction p as [|a p IH]; simpl; [destruct s; reflexivity | exact IH]. Qed.

Lemma startswith_split p s : startswith p s = true -> s = p ++ drop (String.length p) s.
Proof.
  revert s; induction p as [|a p IH]; intros s H; simpl in *.
  - destruct s; reflexivity.
  - destruct s as [|b s]; [discriminate|].
    destruct (Ascii.eqb a b) eqn:E; [|discriminate].
    apply Ascii.eqb_eq in E; subst b. f_equal. apply IH, H.
Qed.

Lemma append_assoc (a b c : string) : (a ++ b) ++ c = a ++ b ++ c.
Proof. induction a as [|x a IH]; simpl; [reflexivity | now rewrite IH]. Qed.

Lemma append_nil_r (a : string) : a ++ "" = a.
Proof. induction a as [|x a IH]; simpl; [reflexivity | now rewrite IH]. Qed.

Lemma append_length (a b : string) :
  String.length (a ++ b) = String.length a + String.length b.
Proof. induction a as [|x a IH]; simpl; [reflexivity | now rewrite IH]. Qed.

Section Replace.

Variables (o : ascii) (os new : string).

Let old : string := String o os.

Lemma replace_cons c t :
  replace old new (String c t) =
  if startswith old (String c t)
  then new ++ replace old new (drop (String.length os) t)
  else String c (replace old new t).
Proof.
  unfold old, replace. simp replace_nonempty.
  destruct (startswith (String o os) (String c t)); simp replace_nonempty; reflexivity.
Qed.

Lemma replace_nil : replace old new "" = "".
Proof. reflexivity. Qed.

(** A match at the front is replaced and the scan goes on behind it. *)
Lemma replace_match rest : replace old new (old ++ rest) = new ++ replace old new rest.
Proof.
  unfold old at 2. change (String o os ++ rest) with (String o (os ++ rest)).
  rewrite replace_cons.
  change (String o (os ++ rest)) with (old ++ rest).
  rewrite startswith_app, drop_app. reflexivity.
Qed.

(** Where the pattern does not occur, nothing changes. *)
Lemma replace_absent s : contains old s = false -> replace old new s = s.
Proof.
  induction s as [|c t IH]; intros H; [reflexivity|].
  rewrite replace_cons.
  cbn [contains] in H. apply orb_false_iff in H as [H1 H2].
  rewrite H1, IH by exact H2. reflexivity.
Qed.

(** Characters before the first match are copied. *)
Lemma replace_skip p rest :
  no_early_match old p = true ->
  replace old new (p ++ old ++ rest) = p ++ new ++ replace old new rest.
Proof.
  induction p as [|c p IH]; intros H.
  - apply replace_match.
  - cbn [no_early_match] in H. apply andb_true_iff in H as [H1 H2].
    apply negb_true_iff in H1.
    change (String c p ++ old ++ rest) with (String c (p ++ old ++ rest)).
    rewrite replace_cons.
    change (String c (p ++ old ++ rest)) with (String c p ++ old ++ rest).
    rewrite <- append_assoc, startswith_app_long, H1.
    + rewrite IH by exact H2. reflexivity.
    + rewrite append_length. lia.
Qed.

(** [replace] is [new.join(s.split(old))]. *)
Lemma replace_join pieces :
  cut_at old pieces = true -> replace old new (join old pieces) = join new pieces.
Proof.
  induction pieces as [|p rest IH]; intros H; [discriminate|].
  destruct rest as [|q rest].
  - cbn [cut_at] in H. apply negb_true_iff in H. apply replace_absent, H.
  - cbn [cut_at] in H. apply andb_true_iff in H as [H1 H2].
    change (join old (p :: q :: rest)) with (p ++ old ++ join old (q :: rest)).
    change (join new (p :: q :: rest)) with (p ++ new ++ join new (q :: rest)).
    rewrite replace_skip, IH by assumption. reflexivity.
Qed.

(** Every string is cut into pieces by the scan. *)
Lemma cut_exists s :
  exists pieces, cut_at old pieces = true /\ join old pieces = s.
Proof.
  remember (String.length s) as n eqn:Hn.
  revert s Hn. induction n as [n IH] using lt_wf_ind. intros s Hn.
  destruct s as [|c t].
  - exists [""]. split; reflexivity.
  - destruct (startswith old (String c t)) eqn:E.
    + pose proof (startswith_split _ _ E) as Hs.
      destruct (IH (String.length (drop (String.length old) (String c t)))) with
        (s := drop (String.length old) (String c t)) as (ps & Hc & Hj).
      * subst n. pose proof (drop_length_le (String.length os) t). simpl. lia.
      * reflexivity.
      * exists ("" :: ps). split.
        -- destruct ps as [|q ps]; [discriminate|]. cbn [cut_at no_early_match]. exact Hc.
        -- destruct ps as [|q ps]; [discriminate|].
           change (join old ("" :: q :: ps)) with (old ++ join old (q :: ps)).
           rewrite Hj. symmetry. exact Hs.
    + destruct (IH (String.length t)) with (s := t) as (ps & Hc & Hj).
      * subst n. simpl. lia.
      * reflexivity.
      * destruct ps as [|q ps]; [discriminate|].
        exists (String c q :: ps). split.
        -- destruct ps as [|q' ps].
           ++ cbn [cut_at join] in *. subst t. cbn [contains]. rewrite E.
              apply negb_true_iff in Hc. rewrite Hc. reflexivity.
           ++ cbn [cut_at] in *. apply andb_true_iff in Hc as [Hc1 Hc2].
              cbn [no_early_match]. rewrite Hc1, Hc2, !andb_true_r.
              apply negb_true_iff.
              change (join old (q :: q' :: ps)) with (q ++ old ++ join old (q' :: ps)) in Hj.
              subst t.
              change (String c (q ++ old ++ join old (q' :: ps)))
                with (String c q ++ old ++ join old (q' :: ps)) in E.
              rewrite <- append_assoc, startswith_app_long in E; [exact E|].
              rewrite append_length. lia.
        -- destruct ps as [|q' ps]; cbn [join] in *; subst t; reflexivity.
Qed.

End Replace.

End PyStrFacts.

(** ** The path rewrite *)

Module PathProps.

Import PyStr PyStrFacts Middleware.

Lemma normalize_agent_run rest :
  normalize ("/v1/agent-run/" ++ rest)
  = "/v1/agent-runs/" ++ replace "/v1/agent-run/" "/v1/agent-runs/" rest.
Proof.
  unfold normalize, rewritten_path.
  rewrite startswith_app.
  apply (replace_match "/" "v1/agent-run/").
Qed.

Lemma normalize_thread rest :
  normalize ("/v1/thread/" ++ rest)
  = "/v1/threads/" ++ replace "/v1/thread/" "/v1/threads/" rest.
Proof.
  unfold normalize, rewritten_path.
  change (startswith "/v1/agent-run/" ("/v1/thread/" ++ rest)) with false.
  rewrite startswith_app.
  apply (replace_match "/" "v1/thread/").
Qed.

Lemma normalize_agent_runs rest :
  normalize ("/v1/agent-runs/" ++ rest) = "/v1/agent-runs/" ++ rest.
Proof. reflexivity. Qed.

Lemma normalize_threads rest :
  normalize ("/v1/threads/" ++ rest) = "/v1/threads/" ++ rest.
Proof. reflexivity. Qed.

Lemma normalize_other path :
  startswith "/v1/agent-run/" path = false ->
  startswith "/v1/thread/" path = false ->
  normalize path = path.
Proof. intros H1 H2. unfold normalize, rewritten_path. now rewrite H1, H2. Qed.

Lemma normalize_idempotent path : normalize (normalize path) = normalize path.
Proof.
  destruct (startswith "/v1/agent-run/" path) eqn:E1.
  - rewrite (startswith_split _ _ E1), normalize_agent_run. apply normalize_agent_runs.
  - destruct (startswith "/v1/thread/" path) eqn:E2.
    + rewrite (startswith_split _ _ E2), normalize_thread. apply normalize_threads.
    + rewrite !(normalize_other path E1 E2). reflexivity.
Qed.

(** A value assigned to the scope differs from the path it was made of. *)
Lemma rewritten_path_changes path p : rewritten_path path = Some p -> p <> path.
Proof.
  intros H Heq. subst p.
  assert (Hn : normalize path = path) by (unfold normalize; now rewrite H).
  unfold rewritten_path in H.
  destruct (startswith "/v1/agent-run/" path) eqn:E1.
  - pose proof (startswith_split _ _ E1) as Hs.
    set (r := drop (String.length "/v1/agent-run/") path) in Hs. clearbody r. subst path.
    rewrite normalize_agent_run in Hn. cbn in Hn. discriminate Hn.
  - destruct (startswith "/v1/thread/" path) eqn:E2; [|discriminate H].
    pose proof (startswith_split _ _ E2) as Hs.
    set (r := drop (String.length "/v1/thread/") path) in Hs. clearbody r. subst path.
    rewrite normalize_thread in Hn. cbn in Hn. discriminate Hn.
Qed.

(** What the path middleware hands to the rest of the chain. *)
Lemma fix_paths_middleware_hands_on request_url_path fix_paths_time call_next w :
  fix_paths_middleware request_url_path fix_paths_time call_next w
  = call_next (tick (fix_paths_time (request_url_path (scope_path w)))
                 match rewritten_path (request_url_path (scope_path w)) with
                 | Some p => set_scope_path p w
                 | None => w
                 end).
Proof. reflexivity. Qed.

(** The path middleware works on [request.url.path]: where normalizing
    changes that path, the normalized path is written to the scope,
    and otherwise the scope is left alone. *)
Lemma fix_paths_middleware_scope request_url_path fix_paths_time call_next w :
  (normalize (request_url_path (scope_path w)) <> request_url_path (scope_path w) ->
   fix_paths_middleware request_url_path fix_paths_time call_next w
   = call_next (tick (fix_paths_time (request_url_path (scope_path w)))
                  (set_scope_path (normalize (request_url_path (scope_path w))) w)))
  /\ (normalize (request_url_path (scope_path w)) = request_url_path (scope_path w) ->
      fix_paths_middleware request_url_path fix_paths_time call_next w
      = call_next (tick (fix_paths_time (request_url_path (scope_path w))) w)).
Proof.
  rewrite fix_paths_middleware_hands_on. unfold normalize.
  destruct (rewritten_path (request_url_path (scope_path w))) as [p|] eqn:E; split; intros H.
  - reflexivity.
  - exfalso. exact (rewritten_path_changes _ _ E H).
  - now elim H.
  - reflexivity.
Qed.

(** C7.  Path normalization is exact and idempotent.  The middleware
    normalizes [request.url.path]: where normalizing changes that path,
    the rest of the chain gets the normalized path in the scope, and
    otherwise the scope as it was.  A path that begins
    with /v1/agent-run/ (resp. /v1/thread/) comes out beginning with
    /v1/agent-runs/ (resp. /v1/threads/), followed by what [str.replace]
    makes of its remainder, which is the remainder itself when the
    singular segment does not occur in it again; a path that begins with
    a plural prefix comes out unchanged; normalizing twice is normalizing
    once. *)
Theorem normalize_exact_idempotent :
  (forall request_url_path fix_paths_time call_next w,
      (normalize (request_url_path (scope_path w)) <> request_url_path (scope_path w) ->
       fix_paths_middleware request_url_path fix_paths_time call_next w
       = call_next (tick (fix_paths_time (request_url_path (scope_path w)))
                      (set_scope_path (normalize (request_url_path (scope_path w))) w)))
      /\ (normalize (request_url_path (scope_path w)) = request_url_path (scope_path w) ->
          fix_paths_middleware request_url_path fix_paths_time call_next w
          = call_next (tick (fix_paths_time (request_url_path (scope_path w))) w)))
  /\ (forall rest,
         normalize ("/v1/agent-run/" ++ rest)
         = "/v1/agent-runs/" ++ replace "/v1/agent-run/" "/v1/agent-runs/" rest)
  /\ (forall rest,
         normalize ("/v1/thread/" ++ rest)
         = "/v1/threads/" ++ replace "/v1/thread/" "/v1/threads/" rest)
  /\ (forall rest, contains "/v1/agent-run/" rest = false ->
         normalize ("/v1/agent-run/" ++ rest) = "/v1/agent-runs/" ++ rest)
  /\ (forall rest, contains "/v1/thread/" rest = false ->
         normalize ("/v1/thread/" ++ rest) = "/v1/threads/" ++ rest)
  /\ (forall rest, normalize ("/v1/agent-runs/" ++ rest) = "/v1/agent-runs/" ++ rest)
  /\ (forall rest, normalize ("/v1/threads/" ++ rest) = "/v1/threads/" ++ rest)
  /\ (forall path, normalize (normalize path) = normalize path).
Proof.
  split; [exact fix_paths_middleware_scope|].
  split; [exact normalize_agent_run|].
  split; [exact normalize_thread|].
  split.
  { intros rest H. rewrite normalize_agent_run.
    now rewrite (replace_absent "/" "v1/agent-run/") by exact H. }
  split.
  { intros rest H. rewrite normalize_thread.
    now rewrite (replace_absent "/" "v1/thread/") by exact H. }
  split; [exact normalize_agent_runs|].
  split; [exact normalize_threads|].
  exact normalize_idempotent.
Qed.

Lemma normalize_exact_idempotent_witness :
  normalize ("/v1/thread/" ++ "42/messages") = "/v1/threads/" ++ "42/messages".
Proof.
  apply (proj1 (proj2 (proj2 (proj2 (proj2 normalize_exact_idempotent))))).
  reflexivity.
Defined.


(** Matches do not overlap: the scan resumes behind a match, so the
    slash that ends one match does not begin another. *)
Example normalize_overlap :
  normalize "/v1/thread/v1/thread/b" = "/v1/threads/v1/thread/b".
Proof. reflexivity. Qed.

End PathProps.

(** ** The middleware chain *)

Module ChainProps.

Import PyStr Middleware.

Lemma app_layers request_url_path fix_paths_time cors router :
  app request_url_path fix_paths_time cors router
  = cors (http_middleware (log_requests_middleware request_url_path)
            (http_middleware (fix_paths_middleware request_url_path fix_paths_time)
               router)).
Proof. reflexivity. Qed.

(** What the logging middleware does with a response. *)
Lemma log_requests_on_response request_url_path call_next w response w' :
  call_next (clear_contextvars w) = (Ok response, w') ->
  log_requests_middleware request_url_path call_next w
  = (Ok response,
     if (status_code response >=? 400)%Z
     then logger_error (LogRequest (scope_method w') (request_url_path (scope_path w'))
                          (status_code response) (clock w' - clock w)) w'
     else w').
Proof.
  intros H. unfold log_requests_middleware. rewrite H.
  destruct (status_code response >=? 400)%Z; reflexivity.
Qed.





(** The logging middleware adds a request entry exactly for the
    responses with status 400 and above; the duration plays no part. *)
Lemma log_requests_logs_iff_error request_url_path call_next w response w' :
  call_next (clear_contextvars w) = (Ok response, w') ->
  (log (snd (log_requests_middleware request_url_path call_next w)) <> log w'
   <-> (400 <= status_code response)%Z).
Proof.
  intros H. rewrite (log_requests_on_response _ _ _ _ _ H). cbn [snd].
  destruct (status_code response >=? 400)%Z eqn:E.
  - apply Z.geb_le in E. split; [intros _; exact E|]. intros _ Heq. cbn [log logger_error] in Heq.
    apply (f_equal (@List.length _)) in Heq. rewrite length_app in Heq. simpl in Heq. lia.
  - split; [intros Hne; now elim Hne|]. intros Hle. apply Z.geb_le in Hle. congruence.
Qed.

(** C4.  A successful request is not logged however long it takes: an
    endpoint that answers 200 after [d] ticks leaves the log empty for
    every [d], so no duration is above a noise threshold. *)
Theorem slow_success_not_logged (request_url_path : string -> string) (d : Z) :
  log (snd (log_requests_middleware request_url_path (endpoint d 200)
              (request_to "GET" "/v1/health"))) = [].
Proof. reflexivity. Qed.

End ChainProps.

(** ** The lifespan *)

Module LifespanProps.

Import Lifespan.

(** Unfold a run down to the behaviour of the collaborators. *)
Ltac unfold_run :=
  cbv [result final run lifespan startup shutdown init_sequence start_tasks
       try_log_reraise try_except_pass call read_env_mode create_task cancel
       cancel_if_set set_worker_metrics_task set_memory_watchdog_task
       set_stream_cleanup_task set_is_shutting_down emit bind ret initial_state
       fst snd tasks trace _worker_metrics_task _memory_watchdog_task
       _stream_cleanup_task _is_shutting_down List.app List.length request_cancel].

(** Decide the next call of the run: by a hypothesis on it, or by cases. *)
Ltac next_call e :=
  match goal with
  | |- context [match behaviour e ?c with _ => _ end] =>
      first [ match goal with H : behaviour e c = _ |- _ => rewrite H end
            | destruct (behaviour e c) eqn:? ];
      cbv beta iota
  end.

Ltac next_mode e :=
  match goal with
  | |- context [is_production (ENV_MODE e)] =>
      destruct (ENV_MODE e) eqn:?; cbv [is_production]; cbv beta iota
  end.

Ltac run_cases e := unfold_run; repeat (first [next_call e | next_mode e]).

(** Membership in a trace, decided by evaluation. *)

Lemma created_in tr h co : In (Created h co) tr -> existsb is_created tr = true.
Proof. intros H. apply existsb_exists. exists (Created h co). now split. Qed.

Lemma not_created tr :
  existsb is_created tr = false -> forall h co, ~ In (Created h co) tr.
Proof. intros H h co Hin. apply created_in in Hin. congruence. Qed.

Lemma not_awaited tr :
  existsb is_awaited tr = false -> forall h, ~ In (Awaited h) tr.
Proof.
  intros H h Hin. enough (existsb is_awaited tr = true) by congruence.
  apply existsb_exists. exists (Awaited h). now split.
Qed.

Lemma not_logged tr :
  existsb is_logged tr = false -> forall msg, ~ In (Logged msg) tr.
Proof.
  intros H msg Hin. enough (existsb is_logged tr = true) by congruence.
  apply existsb_exists. exists (Logged msg). now split.
Qed.

Lemma yielded_iff tr : In Yielded tr <-> existsb is_yielded tr = true.
Proof.
  rewrite existsb_exists. split.
  - intros H. exists Yielded. now split.
  - intros (ev & Hin & Hev). destruct ev; try discriminate. exact Hin.
Qed.

Lemma ext_call_eqb_eq a b : ext_call_eqb a b = true <-> a = b.
Proof. split; [destruct a, b; (reflexivity || discriminate) | intros ->; destruct b; reflexivity]. Qed.

Lemma called_iff c tr : In (Called c) tr <-> existsb (is_called c) tr = true.
Proof.
  rewrite existsb_exists. split.
  - intros H. exists (Called c). split; [exact H|]. now apply ext_call_eqb_eq.
  - intros (ev & Hin & Hev). destruct ev; try discriminate.
    apply ext_call_eqb_eq in Hev. now subst.
Qed.

Lemma read_env_mode_iff tr : In ReadEnvMode tr <-> existsb is_read_env_mode tr = true.
Proof.
  rewrite existsb_exists. split.
  - intros H. exists ReadEnvMode. now split.
  - intros (ev & Hin & Hev). destruct ev; try discriminate. exact Hin.
Qed.

Lemma not_called c tr : existsb (is_called c) tr = false -> ~ In (Called c) tr.
Proof. intros H Hin. apply called_iff in Hin. congruence. Qed.

Lemma not_yielded tr : existsb is_yielded tr = false -> ~ In Yielded tr.
Proof. intros H Hin. apply yielded_iff in Hin. congruence. Qed.

Lemma in_calls_iff c l : In c l <-> existsb (ext_call_eqb c) l = true.
Proof.
  rewrite existsb_exists. split.
  - intros H. exists c. split; [exact H|]. now apply ext_call_eqb_eq.
  - intros (c' & Hin & Hc). apply ext_call_eqb_eq in Hc. now subst.
Qed.

Lemma publisher_created_iff tr :
  (exists h, In (Created h start_cloudwatch_publisher) tr)
  <-> existsb is_publisher_created tr = true.
Proof.
  rewrite existsb_exists. split.
  - intros (h & H). exists (Created h start_cloudwatch_publisher). now split.
  - intros (ev & Hin & Hev). destruct ev as [| |h c| | | | | |]; try discriminate.
    destruct c; try discriminate. now exists h.
Qed.

(** The Required steps known to return, one hypothesis for each. *)
Ltac required_return e H :=
  pose proof (H db_initialize eq_refl);
  pose proof (H init_db eq_refl);
  pose proof (H warm_up_tools_cache eq_refl);
  pose proof (H load_static_suna_config eq_refl);
  pose proof (H sandbox_api_initialize eq_refl);
  pose proof (H triggers_api_initialize eq_refl);
  pose proof (H credentials_api_initialize eq_refl);
  pose proof (H template_api_initialize eq_refl);
  pose proof (H composio_api_initialize eq_refl).

(** *** Startup *)

(** An initialization step that raises leaves no task behind. *)
Lemma required_failure_no_task e c msg :
  criticality_of c = Some Required -> behaviour e c = Raises msg ->
  tasks (final e) = [] /\ forall h co, ~ In (Created h co) (trace (final e)).
Proof.
  intros Hc Hr. destruct c; try discriminate Hc; clear Hc.
  all: split; [|apply not_created]; run_cases e; reflexivity.
Qed.

(** A task is created only behind all the Required steps. *)
Lemma created_after_required e h co :
  In (Created h co) (trace (final e)) ->
  forall c, criticality_of c = Some Required ->
    behaviour e c = Returns /\ In (Called c) (before_first_created (trace (final e))).
Proof.
  intros Hin c Hc. apply created_in in Hin. rewrite called_iff. revert Hin.
  run_cases e; intros Hin; try discriminate Hin;
    destruct c; try discriminate Hc; (split; [assumption | reflexivity]).
Qed.

(** C1, as the source has it.  No task is created before every Required
    step of the initialization sequence of lines 89-115 has returned: if
    one of them raises, the run ends with an empty task store and without
    a creation event, and every creation event stands behind the calls of
    all of them.  (The stateless pipeline lifecycle is initialized after
    the tasks have been created.) *)
Theorem no_task_before_required_init (e : env) :
  (forall c msg,
      criticality_of c = Some Required -> behaviour e c = Raises msg ->
      tasks (final e) = [] /\ forall h co, ~ In (Created h co) (trace (final e)))
  /\ (forall h co,
         In (Created h co) (trace (final e)) ->
         forall c, criticality_of c = Some Required ->
           behaviour e c = Returns
           /\ In (Called c) (before_first_created (trace (final e)))).
Proof.
  split.
  - intros c msg. apply required_failure_no_task.
  - intros h co. apply created_after_required.
Qed.

Lemma no_task_before_required_init_witness :
  tasks (final (env_failing PRODUCTION sandbox_api_initialize "no sandbox")) = [].
Proof.
  apply (proj1 (no_task_before_required_init
                  (env_failing PRODUCTION sandbox_api_initialize "no sandbox"))
           sandbox_api_initialize "no sandbox");
    reflexivity.
Defined.

(** C1 fails for the lifecycle initialization: when it raises, the tasks
    exist already. *)
Lemma tasks_exist_when_lifecycle_fails :
  let e := env_failing (OtherMode "local") lifecycle_initialize "boom" in
  result e = Exc "boom"
  /\ ~ In Yielded (trace (final e))
  /\ List.map coro (tasks (final e))
     = [start_stream_cleanup_task; _memory_watchdog; start_pool_service].
Proof.
  cbv zeta.
  refine (conj _ (conj _ _)); [ | apply not_yielded | ]; vm_compute; reflexivity.
Qed.

(** C5, as the source has it.  A failure to set up the database
    connection is fatal: when [db.initialize()], or after it [init_db()],
    raises, the lifespan logs the error, raises it again and never
    reaches the [yield].  The cache client is set up inside a guard: the
    [yield] is reached whenever the Required steps and the lifecycle
    initialization return, whatever [redis.initialize_async()] does. *)
Theorem database_failure_fatal (e : env) (msg : string) :
  (behaviour e db_initialize = Raises msg ->
     result e = Exc msg
     /\ ~ In Yielded (trace (final e))
     /\ In (Logged ("Error startup: " ++ msg)) (trace (final e)))
  /\ (behaviour e db_initialize = Returns -> behaviour e init_db = Raises msg ->
        result e = Exc msg
        /\ ~ In Yielded (trace (final e))
        /\ In (Logged ("Error startup: " ++ msg)) (trace (final e)))
  /\ ((forall c, criticality_of c = Some Required -> behaviour e c = Returns) ->
        behaviour e lifecycle_initialize = Returns ->
        In Yielded (trace (final e))).
Proof.
  split; [|split].
  - intros H. split; [|split; [apply not_yielded|]]; run_cases e;
      first [reflexivity | cbn; tauto].
  - intros H1 H2. split; [|split; [apply not_yielded|]]; run_cases e;
      first [reflexivity | cbn; tauto].
  - intros H Hl. required_return e H. apply yielded_iff. run_cases e; reflexivity.
Qed.

Lemma database_failure_fatal_witness :
  result (env_failing PRODUCTION db_initialize "no database") = Exc "no database".
Proof.
  apply (proj1 (database_failure_fatal
                  (env_failing PRODUCTION db_initialize "no database") "no database")).
  reflexivity.
Defined.

(** C5 fails for the cache client: its failure is swallowed and the
    application is served. *)
Lemma cache_failure_not_fatal :
  let e := env_failing PRODUCTION redis_initialize_async "connection refused" in
  behaviour e redis_initialize_async = Raises "connection refused"
  /\ In (Called redis_initialize_async) (trace (final e))
  /\ In Yielded (trace (final e))
  /\ result e = Ok tt.
Proof.
  cbv zeta.
  refine (conj _ (conj _ (conj _ _)));
    [ | apply called_iff | apply yielded_iff | ]; vm_compute; reflexivity.
Qed.

(** When the Required steps return, the sequence returns and every
    step has been started, whatever the guarded steps do. *)
Lemma init_sequence_returns e :
  (forall c, criticality_of c = Some Required -> behaviour e c = Returns) ->
  fst (init_sequence e initial_state) = Ok tt
  /\ (forall c, In c step_heads ->
        In (Called c) (trace (snd (init_sequence e initial_state))))
  /\ (forall msg, ~ In (Logged msg) (trace (snd (init_sequence e initial_state)))).
Proof.
  intros H. required_return e H. split; [|split].
  - run_cases e; reflexivity.
  - intros c Hin. apply in_calls_iff in Hin. apply called_iff.
    destruct c; try discriminate Hin; run_cases e; reflexivity.
  - apply not_logged. run_cases e; reflexivity.
Qed.

(** The first Required step that raises ends the sequence. *)
Lemma init_sequence_aborts e before c after msg :
  init_calls = (before ++ c :: after)%list ->
  criticality_of c = Some Required ->
  behaviour e c = Raises msg ->
  (forall c', In c' before -> criticality_of c' = Some Required ->
              behaviour e c' = Returns) ->
  fst (init_sequence e initial_state) = Exc msg
  /\ In (Called c) (trace (snd (init_sequence e initial_state)))
  /\ (forall c', In c' after ->
        ~ In (Called c') (trace (snd (init_sequence e initial_state))))
  /\ result e = Exc msg.
Proof.
  intros Hsplit Hc Hr Hb. unfold init_calls in Hsplit.
  assert (Hret : forall c', existsb (ext_call_eqb c') before = true ->
                      criticality_of c' = Some Required -> behaviour e c' = Returns)
    by (intros c' Hin; apply Hb, in_calls_iff, Hin).
  clear Hb.
  repeat (destruct before as [|c0 before];
          [ cbn in Hsplit; injection Hsplit as <- <-
          | cbn in Hsplit; injection Hsplit as <- Hsplit ]);
    try (destruct before; discriminate Hsplit);
    try discriminate Hc.
  all: try (assert (behaviour e db_initialize = Returns) by (apply Hret; reflexivity));
    try (assert (behaviour e init_db = Returns) by (apply Hret; reflexivity));
    try (assert (behaviour e warm_up_tools_cache = Returns) by (apply Hret; reflexivity));
    try (assert (behaviour e load_static_suna_config = Returns) by (apply Hret; reflexivity));
    try (assert (behaviour e sandbox_api_initialize = Returns) by (apply Hret; reflexivity));
    try (assert (behaviour e triggers_api_initialize = Returns) by (apply Hret; reflexivity));
    try (assert (behaviour e credentials_api_initialize = Returns) by (apply Hret; reflexivity));
    try (assert (behaviour e template_api_initialize = Returns) by (apply Hret; reflexivity));
    clear Hret.
  all: split; [|split; [apply called_iff|split]];
    [ run_cases e; reflexivity
    | run_cases e; reflexivity
    | intros c' Hin; apply in_calls_iff in Hin; apply not_called;
      destruct c'; try discriminate Hin; run_cases e; reflexivity
    | run_cases e; reflexivity ].
Qed.

(** With only guarded steps failing, the whole run ends normally and
    logs nothing. *)
Lemma guarded_failures_silent e :
  (forall c, criticality_of c <> Some BestEffort -> behaviour e c = Returns) ->
  result e = Ok tt /\ forall msg, ~ In (Logged msg) (trace (final e)).
Proof.
  intros H.
  assert (Hreq : forall c, criticality_of c = Some Required -> behaviour e c = Returns)
    by (intros c Hc; apply H; congruence).
  required_return e Hreq.
  pose proof (H lifecycle_initialize ltac:(discriminate)).
  pose proof (H redis_close ltac:(discriminate)).
  pose proof (H db_disconnect ltac:(discriminate)).
  pose proof (H close_db ltac:(discriminate)).
  split; [|apply not_logged]; run_cases e; reflexivity.
Qed.

(** C6, as the source has it.  The guarded steps (connectivity probe,
    cache client, orphan cleanup) cannot stop the sequence: when all the
    Required steps return, the sequence returns, every step has been
    started and nothing has been logged, whatever the guarded steps do.
    A Required step that raises, the Required steps ahead of it having
    returned, ends the sequence there: the error leaves [init_sequence]
    and the lifespan, and no later call is made.  A run in which only
    guarded steps fail ends normally without a log entry. *)
Theorem best_effort_continues_required_aborts (e : env) :
  ((forall c, criticality_of c = Some Required -> behaviour e c = Returns) ->
     fst (init_sequence e initial_state) = Ok tt
     /\ (forall c, In c step_heads ->
           In (Called c) (trace (snd (init_sequence e initial_state))))
     /\ (forall msg, ~ In (Logged msg) (trace (snd (init_sequence e initial_state)))))
  /\ (forall before c after msg,
         init_calls = (before ++ c :: after)%list ->
         criticality_of c = Some Required ->
         behaviour e c = Raises msg ->
         (forall c', In c' before -> criticality_of c' = Some Required ->
                     behaviour e c' = Returns) ->
         fst (init_sequence e initial_state) = Exc msg
         /\ In (Called c) (trace (snd (init_sequence e initial_state)))
         /\ (forall c', In c' after ->
               ~ In (Called c') (trace (snd (init_sequence e initial_state))))
         /\ result e = Exc msg)
  /\ ((forall c, criticality_of c <> Some BestEffort -> behaviour e c = Returns) ->
        result e = Ok tt /\ forall msg, ~ In (Logged msg) (trace (final e))).
Proof.
  split; [exact (init_sequence_returns e)|].
  split; [exact (init_sequence_aborts e)|].
  exact (guarded_failures_silent e).
Qed.

Lemma best_effort_continues_required_aborts_witness :
  fst (init_sequence (env_best_effort_down PRODUCTION) initial_state) = Ok tt.
Proof.
  refine (proj1 (proj1 (best_effort_continues_required_aborts
                          (env_best_effort_down PRODUCTION)) _)).
  intros c Hc. destruct c; first [reflexivity | discriminate Hc].
Defined.

(** C6 fails for the logging: the failures of the guarded steps are
    dropped without a log entry. *)
Lemma best_effort_failure_not_logged :
  let e := env_best_effort_down PRODUCTION in
  In (Called execute_one) (trace (final e))
  /\ In (Called redis_initialize_async) (trace (final e))
  /\ In (Called db_client) (trace (final e))
  /\ result e = Ok tt
  /\ forall msg, ~ In (Logged msg) (trace (final e)).
Proof.
  cbv zeta.
  refine (conj _ (conj _ (conj _ (conj _ _))));
    [apply called_iff | apply called_iff | apply called_iff | | apply not_logged];
    vm_compute; reflexivity.
Qed.

(** C9.  When the initialization sequence has returned, so that the
    tasks are started, the worker metrics publisher task is created if
    and only if [config.ENV_MODE] is [EnvMode.PRODUCTION]; the mode is
    read ahead of the first task creation, and the whole run, shutdown
    included, reads it exactly once. *)
Theorem metrics_publisher_iff_production (e : env) :
  fst (init_sequence e initial_state) = Ok tt ->
  ((exists h, In (Created h start_cloudwatch_publisher) (trace (final e)))
   <-> ENV_MODE e = PRODUCTION)
  /\ List.length (filter is_read_env_mode (trace (final e))) = 1
  /\ In ReadEnvMode (before_first_created (trace (final e))).
Proof.
  intros H. rewrite publisher_created_iff, read_env_mode_iff. revert H.
  run_cases e; intros H; try discriminate H;
    (split; [split; intros X; first [reflexivity | discriminate X]
            | split; reflexivity]).
Qed.

Lemma metrics_publisher_iff_production_witness :
  (exists h, In (Created h start_cloudwatch_publisher)
               (trace (final (env_ok PRODUCTION))))
  <-> ENV_MODE (env_ok PRODUCTION) = PRODUCTION.
Proof.
  refine (proj1 (metrics_publisher_iff_production (env_ok PRODUCTION) _)).
  vm_compute. reflexivity.
Defined.

(** *** Shutdown *)

(** C8.  In every run that reaches the shutdown, the database connection
    is set up before the cache client and the cache client is closed
    before the database connection is disconnected: the events on the two
    resource handles are, in this order, [db.initialize()],
    [redis.initialize_async()], [redis.close()], [db.disconnect()]. *)
Theorem handles_closed_in_reverse_order (e : env) :
  In Yielded (trace (final e)) ->
  filter is_handle_event (trace (final e))
  = [Called db_initialize; Called redis_initialize_async;
     Called redis_close; Called db_disconnect].
Proof.
  intros H. apply yielded_iff in H. revert H.
  run_cases e; intros H; try discriminate H; reflexivity.
Qed.

Lemma handles_closed_in_reverse_order_witness :
  filter is_handle_event (trace (final (env_ok PRODUCTION)))
  = [Called db_initialize; Called redis_initialize_async;
     Called redis_close; Called db_disconnect].
Proof.
  refine (handles_closed_in_reverse_order (env_ok PRODUCTION) _).
  apply yielded_iff. vm_compute. reflexivity.
Defined.

(** The second database module is set up after [db] and closed after it
    too, when [db.disconnect()] returns. *)
Lemma resource_events_order (e : env) :
  In Yielded (trace (final e)) ->
  exists rest,
    filter is_resource_event (trace (final e))
    = ([Called db_initialize; Called init_db; Called redis_initialize_async;
        Called redis_close; Called db_disconnect] ++ rest)%list
    /\ (rest = [] \/ rest = [Called close_db]).
Proof.
  intros H. apply yielded_iff in H. revert H.
  run_cases e; intros H; try discriminate H;
    first [ exists []; split; [reflexivity | left; reflexivity]
          | exists [Called close_db]; split; [reflexivity | right; reflexivity] ].
Qed.

(** C2, as the source has it.  In every run that reaches the shutdown,
    the lifespan sets the shutting-down flag and sleeps two seconds,
    creates no task behind the [yield] and awaits no task.  It calls
    [cancel()] on the worker metrics publisher task, which exists exactly
    in production mode, and on the memory watchdog task.  The pool
    service task, whose handle is not kept, is not cancelled. *)
Theorem shutdown_cancels_tracked_tasks (e : env) :
  In Yielded (trace (final e)) ->
  _is_shutting_down (final e) = true
  /\ (exists rest, after_yield (trace (final e)) = SetShuttingDown :: Slept 2 :: rest)
  /\ (forall h co, ~ In (Created h co) (after_yield (trace (final e))))
  /\ (forall h, ~ In (Awaited h) (trace (final e)))
  /\ (forall h, _worker_metrics_task (final e) = Some h ->
        nth_error (tasks (final e)) h
        = Some {| coro := start_cloudwatch_publisher; cancel_requested := true |})
  /\ (ENV_MODE e = PRODUCTION <-> _worker_metrics_task (final e) <> None)
  /\ (exists h, _memory_watchdog_task (final e) = Some h
                /\ nth_error (tasks (final e)) h
                   = Some {| coro := _memory_watchdog; cancel_requested := true |})
  /\ (exists h, nth_error (tasks (final e)) h
                = Some {| coro := start_pool_service; cancel_requested := false |}).
Proof.
  intros H. apply yielded_iff in H. revert H.
  run_cases e; intros H; try discriminate H; clear H;
    (refine (conj _ (conj _ (conj _ (conj _ (conj _ (conj _ (conj _ _)))))));
     [ reflexivity
     | eexists; reflexivity
     | apply not_created; reflexivity
     | apply not_awaited; reflexivity
     | intros h Hh; first [discriminate Hh | injection Hh as <-; reflexivity]
     | split; intros X; first [reflexivity | discriminate X | congruence]
     | eexists; split; reflexivity
     | first [exists 3; reflexivity | exists 2; reflexivity] ]).
Qed.

Lemma shutdown_cancels_tracked_tasks_witness :
  _is_shutting_down (final (env_ok PRODUCTION)) = true.
Proof.
  refine (proj1 (shutdown_cancels_tracked_tasks (env_ok PRODUCTION) _)).
  apply yielded_iff. vm_compute. reflexivity.
Defined.

(** C2 fails for the pool service task and for the awaiting: after a
    complete shutdown the task is there with no cancellation requested,
    and no task has been awaited. *)
Lemma pool_service_survives_shutdown :
  let e := env_ok (OtherMode "local") in
  result e = Ok tt
  /\ In Yielded (trace (final e))
  /\ nth_error (tasks (final e)) 2
     = Some {| coro := start_pool_service; cancel_requested := false |}
  /\ forall h, ~ In (Awaited h) (trace (final e)).
Proof.
  cbv zeta.
  refine (conj _ (conj _ (conj _ _)));
    [ | apply yielded_iff | | apply not_awaited ]; vm_compute; reflexivity.
Qed.

End LifespanProps.

(** ** More on the path rewrite *)

Module PathExtra.

Import PyStr PyStrFacts Middleware PathProps.



Lemma join_length_grow sep1 sep2 pieces :
  String.length sep2 = S (String.length sep1) ->
  pieces <> [] ->
  String.length (join sep2 pieces) + 1
  = String.length (join sep1 pieces) + List.length pieces.
Proof.
  intros Hsep. induction pieces as [|p rest IH]; intros Hne; [now elim Hne|].
  destruct rest as [|q rest].
  - cbn [join List.length]. lia.
  - change (join sep2 (p :: q :: rest)) with (p ++ sep2 ++ join sep2 (q :: rest)).
    change (join sep1 (p :: q :: rest)) with (p ++ sep1 ++ join sep1 (q :: rest)).
    rewrite !append_length.
    assert (Hq : q :: rest <> []) by discriminate.
    specialize (IH Hq). cbn [List.length] in *. lia.
Qed.

Lemma cut_at_nonempty old pieces : cut_at old pieces = true -> pieces <> [].
Proof. destruct pieces; [discriminate | discriminate]. Qed.

(** X3.  The rewrite adds one character for each occurrence it replaces
    and removes none: a path that begins with a singular prefix, its
    remainder cut into [pieces] at the occurrences of the segment, grows
    by the number of pieces; no path gets shorter. *)
Theorem normalize_length :
  (forall rest, exists pieces,
      cut_at "/v1/agent-run/" pieces = true
      /\ rest = join "/v1/agent-run/" pieces
      /\ String.length (normalize ("/v1/agent-run/" ++ rest))
         = String.length ("/v1/agent-run/" ++ rest) + List.length pieces)
  /\ (forall rest, exists pieces,
         cut_at "/v1/thread/" pieces = true
         /\ rest = join "/v1/thread/" pieces
         /\ String.length (normalize ("/v1/thread/" ++ rest))
            = String.length ("/v1/thread/" ++ rest) + List.length pieces)
  /\ (forall path, String.length path <= String.length (normalize path)).
Proof.
  assert (Ha : forall rest, exists pieces,
      cut_at "/v1/agent-run/" pieces = true
      /\ rest = join "/v1/agent-run/" pieces
      /\ String.length (normalize ("/v1/agent-run/" ++ rest))
         = String.length ("/v1/agent-run/" ++ rest) + List.length pieces).
  { intros rest.
    destruct (cut_exists "/" "v1/agent-run/" rest) as (pieces & Hc & Hj).
    exists pieces. split; [exact Hc|]. split; [now symmetry|].
    rewrite normalize_agent_run, <- Hj.
    rewrite (replace_join "/" "v1/agent-run/") by exact Hc.
    rewrite !append_length.
    pose proof (join_length_grow "/v1/agent-run/" "/v1/agent-runs/" pieces eq_refl
                  (cut_at_nonempty _ _ Hc)) as Hl.
    simpl String.length at 1 3. lia. }
  assert (Ht : forall rest, exists pieces,
      cut_at "/v1/thread/" pieces = true
      /\ rest = join "/v1/thread/" pieces
      /\ String.length (normalize ("/v1/thread/" ++ rest))
         = String.length ("/v1/thread/" ++ rest) + List.length pieces).
  { intros rest.
    destruct (cut_exists "/" "v1/thread/" rest) as (pieces & Hc & Hj).
    exists pieces. split; [exact Hc|]. split; [now symmetry|].
    rewrite normalize_thread, <- Hj.
    rewrite (replace_join "/" "v1/thread/") by exact Hc.
    rewrite !append_length.
    pose proof (join_length_grow "/v1/thread/" "/v1/threads/" pieces eq_refl
                  (cut_at_nonempty _ _ Hc)) as Hl.
    simpl String.length at 1 3. lia. }
  split; [exact Ha|]. split; [exact Ht|].
  intros path.
  destruct (startswith "/v1/agent-run/" path) eqn:E1.
  - rewrite (startswith_split _ _ E1) at 1 2.
    destruct (Ha (drop (String.length "/v1/agent-run/") path)) as (ps & _ & _ & Hl).
    rewrite Hl. lia.
  - destruct (startswith "/v1/thread/" path) eqn:E2.
    + rewrite (startswith_split _ _ E2) at 1 2.
      destruct (Ht (drop (String.length "/v1/thread/") path)) as (ps & _ & _ & Hl).
      rewrite Hl. lia.
    + rewrite (normalize_other path E1 E2). lia.
Qed.

End PathExtra.

(** ** More on the logging middleware *)

Module ChainExtra.

Import PyStr Middleware Observe ChainProps.

(** X4.  The logging middleware hands on what the downstream gave: the
    same response or the same exception, the same scope, clock and
    context variables; the log keeps its entries and gains at most one,
    and it gains none exactly for a response with a status below 400. *)
Theorem log_requests_transparent
    (request_url_path : string -> string) (call_next : handler) (w : world) :
  let r := call_next (clear_contextvars w) in
  let r' := log_requests_middleware request_url_path call_next w in
  fst r' = fst r
  /\ scope_method (snd r') = scope_method (snd r)
  /\ scope_path (snd r') = scope_path (snd r)
  /\ clock (snd r') = clock (snd r)
  /\ contextvars (snd r') = contextvars (snd r)
  /\ exists added,
       log (snd r') = (log (snd r) ++ added)%list
       /\ List.length added <= 1
       /\ (added = [] <-> exists response,
              fst r = Ok response /\ (status_code response < 400)%Z).
Proof.
  cbv zeta. unfold log_requests_middleware.
  destruct (call_next (clear_contextvars w)) as [[response|msg] w'] eqn:E; cbn [fst snd].
  - destruct (status_code response >=? 400)%Z eqn:Es; cbn [fst snd url_path _url new_request].
    + repeat (split; [reflexivity|]). eexists. split; [reflexivity|].
      split; [cbn; lia|]. split; [discriminate|].
      intros (r0 & Hr & Hlt). injection Hr as <-.
      apply Z.geb_le in Es. lia.
    + repeat (split; [reflexivity|]). exists []. split; [now rewrite app_nil_r|].
      split; [cbn; lia|]. split; [|reflexivity].
      intros _. exists response. split; [reflexivity|].
      rewrite Z.geb_leb in Es. apply Z.leb_gt in Es. exact Es.
  - repeat (split; [reflexivity|]). eexists. split; [reflexivity|].
    split; [cbn; lia|]. split; [discriminate|].
    intros (r0 & Hr & _). discriminate Hr.
Qed.



(** The context variables a request arrives with have no effect:
    they are cleared before anything else runs. *)
Theorem contextvars_do_not_leak
    (request_url_path : string -> string)
    (call_next : handler) (cv : list (string * string)) (w : world) :
  log_requests_middleware request_url_path call_next (set_contextvars cv w)
  = log_requests_middleware request_url_path call_next w.
Proof. reflexivity. Qed.

Lemma log_requests_logs_iff_error_witness :
  log (snd (log_requests_middleware (fun p => p) (endpoint 5 400)
              (request_to "GET" "/v1/x")))
  <> log (tick 5 (clear_contextvars (request_to "GET" "/v1/x"))).
Proof.
  refine (proj2 (log_requests_logs_iff_error (fun p => p) (endpoint 5 400)
                   (request_to "GET" "/v1/x")
                   {| status_code := 400 |}
                   (tick 5 (clear_contextvars (request_to "GET" "/v1/x"))) _) _).
  - reflexivity.
  - simpl. lia.
Defined.

End ChainExtra.

(** ** The memory watchdog *)

Module WatchdogProps.

Import Watchdog.

Lemma watchdog_loop_elapsed fuel awaits i :
  (forall j, awaits j = Elapsed) ->
  watchdog_loop fuel awaits i = (60 * (i + fuel), StillRunning).
Proof.
  intros H. revert i. induction fuel as [|fuel IH]; intros i; cbn [watchdog_loop].
  - now rewrite Nat.add_0_r.
  - rewrite H, IH. f_equal. lia.
Qed.

Lemma watchdog_loop_cancelled fuel awaits i k :
  (forall j, i <= j -> j < k -> awaits j = Elapsed) ->
  awaits k = CancelledError ->
  i <= k -> k < i + fuel ->
  watchdog_loop fuel awaits i = (60 * k, Finished (Ok tt)).
Proof.
  revert i. induction fuel as [|fuel IH]; intros i Hel Hk Hik Hfuel; [lia|].
  cbn [watchdog_loop].
  destruct (Nat.eq_dec i k) as [->|Hne].
  - now rewrite Hk.
  - rewrite Hel by lia. apply IH; try assumption; try lia.
    intros j Hj1 Hj2. apply Hel; lia.
Qed.

Lemma watchdog_loop_finished fuel awaits i n r :
  watchdog_loop fuel awaits i = (n, Finished r) ->
  exists k, n = 60 * k /\ i <= k /\ k < i + fuel
            /\ (forall j, i <= j -> j < k -> awaits j = Elapsed)
            /\ ((awaits k = CancelledError /\ r = Ok tt)
                \/ exists msg, awaits k = OtherError msg /\ r = Exc msg).
Proof.
  revert i. induction fuel as [|fuel IH]; intros i H; cbn [watchdog_loop] in H;
    [discriminate|].
  destruct (awaits i) as [| |msg] eqn:E.
  - destruct (IH _ H) as (k & Hn & Hik & Hk & Hel & Hend).
    exists k. split; [exact Hn|]. split; [lia|]. split; [lia|]. split; [|exact Hend].
    intros j Hj1 Hj2. destruct (Nat.eq_dec j i) as [->|Hne]; [exact E|]. apply Hel; lia.
  - injection H as <- <-. exists i. split; [reflexivity|]. split; [lia|]. split; [lia|].
    split; [intros; lia|]. left. now split.
  - injection H as <- <-. exists i. split; [reflexivity|]. split; [lia|]. split; [lia|].
    split; [intros; lia|]. right. exists msg. now split.
Qed.

(** X7.  A cancellation that arrives during the await of turn [k], the
    awaits before it having elapsed, ends the watchdog without an
    exception after [60 * k] seconds of sleep. *)
Theorem watchdog_returns_on_cancellation
    (awaits : nat -> sleep_outcome) (k fuel : nat) :
  (forall j, j < k -> awaits j = Elapsed) ->
  awaits k = CancelledError ->
  k < fuel ->
  _memory_watchdog_coro fuel awaits = (60 * k, Finished (Ok tt)).
Proof.
  intros Hel Hk Hfuel. apply watchdog_loop_cancelled; try assumption; try lia.
  intros j _ Hj. now apply Hel.
Qed.

Lemma watchdog_returns_on_cancellation_witness :
  _memory_watchdog_coro 10 (cancelled_at 3) = (180, Finished (Ok tt)).
Proof.
  refine (watchdog_returns_on_cancellation (cancelled_at 3) 3 10 _ _ _).
  - intros j Hj. unfold cancelled_at.
    destruct (Nat.eqb j 3) eqn:E; [apply Nat.eqb_eq in E; lia | reflexivity].
  - reflexivity.
  - lia.
Defined.

(** X8.  The watchdog does not end by itself: while every await elapses
    it is still in its loop, however long it is observed, and when it has
    ended, an await was cancelled (and it returned) or raised (and the
    exception left it), all the awaits before having elapsed. *)
Theorem watchdog_ends_only_when_interrupted (awaits : nat -> sleep_outcome) :
  ((forall j, awaits j = Elapsed) ->
   forall fuel, _memory_watchdog_coro fuel awaits = (60 * fuel, StillRunning))
  /\ (forall fuel n r,
         _memory_watchdog_coro fuel awaits = (n, Finished r) ->
         exists k, n = 60 * k /\ k < fuel
                   /\ (forall j, j < k -> awaits j = Elapsed)
                   /\ ((awaits k = CancelledError /\ r = Ok tt)
                       \/ exists msg, awaits k = OtherError msg /\ r = Exc msg)).
Proof.
  split.
  - intros H fuel. unfold _memory_watchdog_coro. now rewrite watchdog_loop_elapsed.
  - intros fuel n r H. destruct (watchdog_loop_finished _ _ _ _ _ H)
      as (k & Hn & _ & Hk & Hel & Hend).
    exists k. split; [exact Hn|]. split; [lia|]. split; [|exact Hend].
    intros j Hj. apply Hel; lia.
Qed.

Lemma watchdog_ends_only_when_interrupted_witness :
  _memory_watchdog_coro 7 (fun _ => Elapsed) = (420, StillRunning).
Proof.
  refine (proj1 (watchdog_ends_only_when_interrupted (fun _ => Elapsed)) _ 7).
  reflexivity.
Defined.

End WatchdogProps.

(** ** More on the lifespan *)

Module LifespanExtra.

Import Lifespan Observe LifespanProps.

Lemma increasing_tail a l : increasing (a :: l) = true -> increasing l = true.
Proof.
  destruct l as [|b l]; [reflexivity|]. cbn [increasing].
  intros H. now apply andb_true_iff in H.
Qed.

Lemma increasing_lower a l :
  increasing (a :: l) = true -> Forall (fun b => a < b) l.
Proof.
  revert a. induction l as [|b l IH]; intros a H; [constructor|].
  cbn [increasing] in H. apply andb_true_iff in H as [Hab Hl].
  apply Nat.ltb_lt in Hab. constructor; [exact Hab|].
  eapply Forall_impl; [|exact (IH b Hl)]. cbn. intros x Hx. lia.
Qed.

Lemma call_line_injective a b : call_line a = call_line b -> a = b.
Proof. destruct a, b; cbn; intros H; first [reflexivity | discriminate H]. Qed.

Lemma no_call_behind c tr :
  Forall (fun b => call_line c < b) (called_lines tr) ->
  filter (is_called c) tr = [].
Proof.
  induction tr as [|ev tr IH]; intros H; [reflexivity|].
  destruct ev as [c'| | | | | | | |]; cbn [called_lines filter is_called] in *;
    try (apply IH; exact H).
  inversion H as [|x l Hx Hl]; subst.
  destruct (ext_call_eqb c' c) eqn:E.
  - apply ext_call_eqb_eq in E. subst c'. lia.
  - apply IH, Hl.
Qed.

Lemma increasing_once tr :
  increasing (called_lines tr) = true ->
  forall c, List.length (filter (is_called c) tr) <= 1.
Proof.
  induction tr as [|ev tr IH]; intros H c; [cbn; lia|].
  destruct ev as [c'| | | | | | | |]; cbn [called_lines filter is_called] in *;
    try (apply IH; exact H).
  destruct (ext_call_eqb c' c) eqn:E.
  - apply ext_call_eqb_eq in E. subst c'.
    rewrite (no_call_behind c tr (increasing_lower _ _ H)). cbn. lia.
  - apply IH. eapply increasing_tail, H.
Qed.

(** X9.  In every run the calls to the collaborators are made in the
    order of their lines in the source, and none is made twice. *)
Theorem calls_in_source_order (e : env) :
  increasing (called_lines (trace (final e))) = true
  /\ forall c, List.length (filter (is_called c) (trace (final e))) <= 1.
Proof.
  assert (H : increasing (called_lines (trace (final e))) = true)
    by (run_cases e; reflexivity).
  split; [exact H | exact (increasing_once _ H)].
Qed.

(** Go through the cases of a run once, whatever the number of places
    in which the goal speaks of it. *)
Ltac by_run e :=
  unfold result, final;
  let r := fresh "r" in
  let Hr := fresh "Hr" in
  remember (run e) as r eqn:Hr; revert Hr;
  run_cases e; intros Hr; subst r; cbv beta iota.

(** The unguarded calls known to return, one hypothesis for each. *)
Ltac unguarded_return e H :=
  pose proof (H db_initialize eq_refl);
  pose proof (H init_db eq_refl);
  pose proof (H warm_up_tools_cache eq_refl);
  pose proof (H load_static_suna_config eq_refl);
  pose proof (H sandbox_api_initialize eq_refl);
  pose proof (H triggers_api_initialize eq_refl);
  pose proof (H credentials_api_initialize eq_refl);
  pose proof (H template_api_initialize eq_refl);
  pose proof (H composio_api_initialize eq_refl);
  pose proof (H lifecycle_initialize eq_refl);
  pose proof (H db_disconnect eq_refl);
  pose proof (H close_db eq_refl).

(** X10.  The lifespan ends without an exception exactly when every call
    that stands outside a guard returns; the five guarded calls have no
    say in it. *)
Theorem result_ok_iff_unguarded_return (e : env) :
  result e = Ok tt <-> (forall c, unguarded c = true -> behaviour e c = Returns).
Proof.
  split.
  - run_cases e; intros H; try discriminate H;
      intros c Hc; destruct c; first [discriminate Hc | assumption].
  - intros H. unguarded_return e H. run_cases e; reflexivity.
Qed.

Lemma result_ok_iff_unguarded_return_witness :
  result (env_best_effort_down PRODUCTION) = Ok tt.
Proof.
  refine (proj2 (result_ok_iff_unguarded_return (env_best_effort_down PRODUCTION)) _).
  intros c Hc. destruct c; first [reflexivity | discriminate Hc].
Defined.

(** X16.  The exception that leaves the lifespan is the one of the first
    unguarded call, in the order of the source, that raises -- during
    the startup or during the shutdown. *)
Theorem first_failure_reported (e : env) (c : ext_call) (msg : string) :
  unguarded c = true ->
  behaviour e c = Raises msg ->
  (forall c', unguarded c' = true -> call_line c' < call_line c ->
              behaviour e c' = Returns) ->
  result e = Exc msg.
Proof.
  intros Hc Hr Hb.
  destruct c; try discriminate Hc; clear Hc.
  all: try (assert (behaviour e db_initialize = Returns)
              by (apply Hb; [reflexivity | cbn; lia]));
    try (assert (behaviour e init_db = Returns)
           by (apply Hb; [reflexivity | cbn; lia]));
    try (assert (behaviour e warm_up_tools_cache = Returns)
           by (apply Hb; [reflexivity | cbn; lia]));
    try (assert (behaviour e load_static_suna_config = Returns)
           by (apply Hb; [reflexivity | cbn; lia]));
    try (assert (behaviour e sandbox_api_initialize = Returns)
           by (apply Hb; [reflexivity | cbn; lia]));
    try (assert (behaviour e triggers_api_initialize = Returns)
           by (apply Hb; [reflexivity | cbn; lia]));
    try (assert (behaviour e credentials_api_initialize = Returns)
           by (apply Hb; [reflexivity | cbn; lia]));
    try (assert (behaviour e template_api_initialize = Returns)
           by (apply Hb; [reflexivity | cbn; lia]));
    try (assert (behaviour e composio_api_initialize = Returns)
           by (apply Hb; [reflexivity | cbn; lia]));
    try (assert (behaviour e lifecycle_initialize = Returns)
           by (apply Hb; [reflexivity | cbn; lia]));
    try (assert (behaviour e db_disconnect = Returns)
           by (apply Hb; [reflexivity | cbn; lia]));
    clear Hb; run_cases e; reflexivity.
Qed.

Lemma first_failure_reported_witness :
  result (env_failing PRODUCTION close_db "still open") = Exc "still open".
Proof.
  refine (first_failure_reported (env_failing PRODUCTION close_db "still open")
            close_db "still open" _ _ _).
  - reflexivity.
  - reflexivity.
  - intros c' Hc' Hlt. destruct c'; first [reflexivity | discriminate Hc' | cbn in Hlt; lia].
Defined.

(** X11.  A run logs nothing when it ends normally; when it ends with an
    exception it logs exactly one entry, "Error startup: " followed by
    the message of that exception, as its last event -- also when the
    exception comes from the shutdown. *)
Theorem logged_iff_failed (e : env) :
  (result e = Ok tt /\ filter is_logged (trace (final e)) = [])
  \/ (exists msg,
         result e = Exc msg
         /\ filter is_logged (trace (final e)) = [Logged ("Error startup: " ++ msg)]
         /\ last (trace (final e)) Yielded = Logged ("Error startup: " ++ msg)).
Proof.
  by_run e;
    first [ left; split; reflexivity
          | right; eexists; split; [reflexivity | split; reflexivity] ].
Qed.

(** X12.  When [db.disconnect()] raises during the shutdown, the
    exception leaves the lifespan, [close_db()] is not called, and the
    error is logged as the last event; the flag has been set and
    [redis.close()] has been called before. *)
Theorem disconnect_failure_skips_close_db (e : env) (msg : string) :
  In Yielded (trace (final e)) ->
  behaviour e db_disconnect = Raises msg ->
  result e = Exc msg
  /\ ~ In (Called close_db) (trace (final e))
  /\ In (Called redis_close) (trace (final e))
  /\ last (trace (final e)) Yielded = Logged ("Error startup: " ++ msg)
  /\ _is_shutting_down (final e) = true.
Proof.
  intros Hy Hd. apply yielded_iff in Hy. revert Hy.
  by_run e; intros Hy; try discriminate Hy;
    (refine (conj _ (conj _ (conj _ (conj _ _))));
     [ reflexivity
     | apply not_called; reflexivity
     | apply called_iff; reflexivity
     | reflexivity
     | reflexivity ]).
Qed.

Lemma disconnect_failure_skips_close_db_witness :
  result (env_failing PRODUCTION db_disconnect "gone") = Exc "gone".
Proof.
  refine (proj1 (disconnect_failure_skips_close_db
                   (env_failing PRODUCTION db_disconnect "gone") "gone" _ _)).
  - apply yielded_iff. vm_compute. reflexivity.
  - reflexivity.
Defined.

(** X13.  A failure of [redis.close()] is swallowed: in every run that
    reaches the shutdown both [redis.close()] and [db.disconnect()] are
    called, and the run ends normally as soon as [db.disconnect()] and
    [close_db()] return. *)
Theorem redis_close_failure_swallowed (e : env) :
  In Yielded (trace (final e)) ->
  In (Called redis_close) (trace (final e))
  /\ In (Called db_disconnect) (trace (final e))
  /\ (behaviour e db_disconnect = Returns -> behaviour e close_db = Returns ->
      result e = Ok tt).
Proof.
  intros Hy. apply yielded_iff in Hy. rewrite !called_iff. revert Hy.
  by_run e; intros Hy; try discriminate Hy;
    (refine (conj _ (conj _ _));
     [ reflexivity | reflexivity
     | intros H1 H2; first [reflexivity | discriminate H1 | discriminate H2] ]).
Qed.

Lemma redis_close_failure_swallowed_witness :
  In (Called db_disconnect)
     (trace (final (env_failing PRODUCTION redis_close "timeout"))).
Proof.
  refine (proj1 (proj2 (redis_close_failure_swallowed
                          (env_failing PRODUCTION redis_close "timeout") _))).
  apply yielded_iff. vm_compute. reflexivity.
Defined.

(** X14.  A run that ends before the [yield] cleans nothing up: the
    exception leaves the lifespan, the flag stays unset, no task is
    cancelled and neither [redis.close()] nor [db.disconnect()] nor
    [close_db()] is called. *)
Theorem failed_startup_cleans_nothing (e : env) :
  ~ In Yielded (trace (final e)) ->
  (exists msg, result e = Exc msg)
  /\ _is_shutting_down (final e) = false
  /\ existsb is_cancelled (trace (final e)) = false
  /\ Forall (fun t => cancel_requested t = false) (tasks (final e))
  /\ ~ In (Called redis_close) (trace (final e))
  /\ ~ In (Called db_disconnect) (trace (final e))
  /\ ~ In (Called close_db) (trace (final e)).
Proof.
  intros Hy.
  assert (Hb : existsb is_yielded (trace (final e)) = false).
  { destruct (existsb is_yielded (trace (final e))) eqn:E; [|reflexivity].
    elim Hy. now apply yielded_iff. }
  clear Hy. revert Hb.
  by_run e; intros Hb; try discriminate Hb;
    (refine (conj _ (conj _ (conj _ (conj _ (conj _ (conj _ _))))));
     [ eexists; reflexivity
     | reflexivity
     | reflexivity
     | repeat constructor
     | apply not_called; reflexivity
     | apply not_called; reflexivity
     | apply not_called; reflexivity ]).
Qed.

Lemma failed_startup_cleans_nothing_witness :
  _is_shutting_down (final (env_failing PRODUCTION lifecycle_initialize "boom")) = false.
Proof.
  refine (proj1 (proj2 (failed_startup_cleans_nothing
                          (env_failing PRODUCTION lifecycle_initialize "boom") _))).
  apply not_yielded. vm_compute. reflexivity.
Defined.

(** X15.  The tasks are created in a fixed order and each module global,
    once set, holds the handle of the task that runs its coroutine. *)
Theorem task_handles_consistent (e : env) :
  (List.map coro (tasks (final e)) = []
   \/ List.map coro (tasks (final e))
      = [start_stream_cleanup_task; _memory_watchdog; start_pool_service]
   \/ List.map coro (tasks (final e))
      = [start_cloudwatch_publisher; start_stream_cleanup_task;
         _memory_watchdog; start_pool_service])
  /\ (forall h, _worker_metrics_task (final e) = Some h ->
        option_map coro (nth_error (tasks (final e)) h) = Some start_cloudwatch_publisher)
  /\ (forall h, _stream_cleanup_task (final e) = Some h ->
        option_map coro (nth_error (tasks (final e)) h) = Some start_stream_cleanup_task)
  /\ (forall h, _memory_watchdog_task (final e) = Some h ->
        option_map coro (nth_error (tasks (final e)) h) = Some _memory_watchdog).
Proof.
  by_run e;
    (refine (conj _ (conj _ (conj _ _)));
     [ first [ left; reflexivity | right; left; reflexivity | right; right; reflexivity ]
     | intros h Hh; first [discriminate Hh | injection Hh as <-; reflexivity]
     | intros h Hh; first [discriminate Hh | injection Hh as <-; reflexivity]
     | intros h Hh; first [discriminate Hh | injection Hh as <-; reflexivity] ]).
Qed.

End LifespanExtra.
